(** * Sliding-window context manager: a shallow embedding of
      [examples/agent-context-manager/context.py]

    The Python module defines a free function [estimate_tokens] and a class
    [ContextWindow] whose methods read and write the fields of [self].
    Python integers are unbounded, so every count is a [Z].  A text is a
    [string]; each character of the Rocq string stands for one Python
    character, so [String.length] plays the part of [len].  A message is
    the two-key dict [{"role": ..., "content": ...}], modelled as a record.
    Methods are computations in a small state monad over the object. *)

From Stdlib Require Import ZArith String Lia.
From stdpp Require Import base tactics option list.

Local Open Scope string_scope.
Local Open Scope list_scope.
Local Open Scope Z_scope.

(** ** Data model *)

Record Message : Type := mkMessage {
  role : string;
  content : string
}.

Record ContextWindow : Type := mkContextWindow {
  max_tokens : Z;
  reserve_tokens : Z;
  count_tokens : string -> Z;
  system : option Message;
  messages : list Message
}.

(** [estimate_tokens], line 9: [max(1, len(text) // 4)].  [//] is floor
    division, which is [Z.div] for the positive divisor 4. *)
Definition estimate_tokens (text : string) : Z :=
  Z.max 1 (Z.of_nat (String.length text) / 4).

(** ** The state monad of methods *)

Definition Method (A : Type) : Type := ContextWindow -> A * ContextWindow.

#[global] Instance Method_ret : MRet Method :=
  fun A (x : A) self => (x, self).

#[global] Instance Method_bind : MBind Method :=
  fun A B (f : A -> Method B) (m : Method A) self =>
    let '(x, self') := m self in f x self'.

(** Reading [self] and assigning to one of its attributes. *)
Definition get_self : Method ContextWindow := fun self => (self, self).

Definition set_attr_system (v : option Message) : Method unit :=
  fun self =>
    (tt, mkContextWindow (max_tokens self) (reserve_tokens self)
           (count_tokens self) v (messages self)).

Definition set_attr_messages (v : list Message) : Method unit :=
  fun self =>
    (tt, mkContextWindow (max_tokens self) (reserve_tokens self)
           (count_tokens self) (system self) v).

(** The value a method call returns, and the object it leaves behind. *)
Definition returns {A} (m : Method A) (self : ContextWindow) : A := (m self).1.
Definition after {A} (m : Method A) (self : ContextWindow) : ContextWindow :=
  (m self).2.

(** ** The class *)

(** [__init__], lines 28-32.  [token_counter or estimate_tokens] picks the
    default when no counter is passed.  There is no [raise] in the
    constructor: it is a total function of its arguments. *)
Definition __init__ (max_tokens0 reserve_tokens0 : Z)
    (token_counter : option (string -> Z)) : ContextWindow :=
  mkContextWindow max_tokens0 reserve_tokens0
    (default estimate_tokens token_counter) None [].

(** [_message_tokens], line 104: content estimate plus the fixed overhead. *)
Definition overhead : Z := 4.

Definition _message_tokens (self : ContextWindow) (msg : Message) : Z :=
  count_tokens self (content msg) + overhead.

(** [set_system], line 36. *)
Definition set_system (content0 : string) : Method unit :=
  set_attr_system (Some (mkMessage "system" content0)).

(** [add], line 40: [self.messages.append(...)]. *)
Definition add (role0 content0 : string) : Method unit :=
  self ← get_self;
  set_attr_messages (messages self ++ [mkMessage role0 content0]).

Definition add_user (content0 : string) : Method unit := add "user" content0.
Definition add_assistant (content0 : string) : Method unit :=
  add "assistant" content0.

(** The [for msg in reversed(self.messages)] loop of [render], lines 67-72,
    over the messages still to visit, with the loop variables [kept] and
    [used].  The first branch is the [break]. *)
Fixpoint render_loop (self : ContextWindow) (budget : Z)
    (todo : list Message) (kept : list Message) (used : Z)
    : list Message * Z :=
  match todo with
  | [] => (kept, used)
  | msg :: todo' =>
      let msg_tokens := _message_tokens self msg in
      if used + msg_tokens >? budget then (kept, used)
      else render_loop self budget todo' (kept ++ [msg]) (used + msg_tokens)
  end.

(** [render], lines 56-79. *)
Definition render : Method (list Message) :=
  self ← get_self;
  let budget := max_tokens self - reserve_tokens self in
  let result := [] in
  let system_tokens := 0 in
  let '(system_tokens, budget) :=
    match system self with
    | Some sys =>
        let system_tokens := _message_tokens self sys in
        (system_tokens, budget - system_tokens)
    | None => (system_tokens, budget)
    end in
  let '(kept, used) :=
    render_loop self budget (reverse (messages self)) [] 0 in
  let kept := reverse kept in
  let result :=
    match system self with
    | Some sys => result ++ [sys]
    | None => result
    end in
  let result := result ++ kept in
  mret result.

(** [sum(self._message_tokens(m) for m in ms)]: the built-in [sum] adds
    from the left, starting at 0. *)
Definition sum_tokens (self : ContextWindow) (ms : list Message) : Z :=
  foldl (fun acc m => acc + _message_tokens self m) 0 ms.

(** [token_count], lines 83-88: the running [total] over the pinned
    message and then the history, left to right. *)
Definition token_count : Method Z :=
  self ← get_self;
  let total := 0 in
  let total :=
    match system self with
    | Some sys => total + _message_tokens self sys
    | None => total
    end in
  let total :=
    foldl (fun total msg => total + _message_tokens self msg) total
      (messages self) in
  mret total.

(** [available_tokens], lines 92-94. *)
Definition available_tokens : Method Z :=
  rendered ← render;
  self ← get_self;
  let used := sum_tokens self rendered in
  mret (max_tokens self - used).

(** [clear], lines 98-100. *)
Definition clear (keep_system : bool) : Method unit :=
  _ ← set_attr_messages [];
  if negb keep_system then set_attr_system None else mret tt.

(** ** Vocabulary of the statements *)

(** The value of the local [budget] when the loop of [render] starts
    (line 64): the ceiling minus the reserve, minus the pinned message's
    cost when there is one. *)
Definition render_budget (self : ContextWindow) : Z :=
  match system self with
  | Some sys => max_tokens self - reserve_tokens self - _message_tokens self sys
  | None => max_tokens self - reserve_tokens self
  end.

(** Accounted cost of the pinned message, 0 when none is set. *)
Definition pinned_tokens (self : ContextWindow) : Z :=
  from_option (_message_tokens self) 0 (system self).

(** The estimator contract: at least one token for every text. *)
Definition estimator_contract (self : ContextWindow) : Prop :=
  forall text : string, 1 <= count_tokens self text.

(** A caller appending a batch of turns, one [add] per turn. *)
Fixpoint add_each (turns : list Message) : Method unit :=
  match turns with
  | [] => mret tt
  | t :: turns' => _ ← add (role t) (content t); add_each turns'
  end.

(** ** The render algorithm as the specification words it

    Step 3: walk the history newest first with the running [used]; a
    message that would overflow the budget ends the walk, any other one is
    kept and paid for. *)
Fixpoint spec_walk (cost : Message -> Z) (budget used : Z)
    (newest_first : list Message) : list Message :=
  match newest_first with
  | [] => []
  | m :: older =>
      if bool_decide (used + cost m > budget) then []
      else m :: spec_walk cost budget (used + cost m) older
  end.

(** Steps 1, 2, 4 and 5 around it. *)
Definition spec_render (self : ContextWindow) : list Message :=
  let cost := fun m => count_tokens self (content m) + 4 in
  let budget := max_tokens self - reserve_tokens self in
  let budget :=
    match system self with
    | Some pinned => budget - cost pinned
    | None => budget
    end in
  let kept := spec_walk cost budget 0 (reverse (messages self)) in
  option_list (system self) ++ reverse kept.

(** ** Estimators and windows used as concrete instances *)

(** An estimator that returns [len(text)] exactly. *)
Definition len_counter (text : string) : Z := Z.of_nat (String.length text).

(** An estimator that answers [n] for every text. *)
Definition const_counter (n : Z) (text : string) : Z := n.

Definition text26a : string := "aaaaaaaaaaaaaaaaaaaaaaaaaa".
Definition text26b : string := "bbbbbbbbbbbbbbbbbbbbbbbbbb".
Definition text26c : string := "cccccccccccccccccccccccccc".
Definition text56 : string :=
  "dddddddddddddddddddddddddddddddddddddddddddddddddddddddd".

(** Scenario A: ceiling 100, reserve 20, pinned "SYS", three turns of
    accounted cost 30 each. *)
Definition scenario_A : ContextWindow :=
  after (_ ← set_system "SYS";
         _ ← add_user text26a;
         _ ← add_assistant text26b;
         add_user text26c)
    (__init__ 100 20 (Some len_counter)).

(** Scenario B: ceiling 50, no reserve, no pinned message, one turn of
    accounted cost 60. *)
Definition scenario_B : ContextWindow :=
  after (add_user text56) (__init__ 50 0 (Some len_counter)).

(** Scenario C: ceiling 100, no reserve, a pinned message of accounted
    cost 200, and two turns behind it. *)
Definition scenario_C : ContextWindow :=
  after (_ ← set_system "You are a very long instruction.";
         _ ← add_user "hello";
         add_assistant "hi there")
    (__init__ 100 0 (Some (const_counter 196))).

(** Scenario D: the default window with a pinned message and two turns. *)
Definition scenario_D : ContextWindow :=
  after (_ ← set_system "Be brief.";
         _ ← add_user "What is a monad?";
         add_assistant "A monoid in the category of endofunctors.")
    (__init__ 4096 512 None).

(** A window whose reserve exceeds its ceiling, freshly constructed. *)
Definition over_reserved : ContextWindow := __init__ 10 20 None.

(** The same window after two turns. *)
Definition over_reserved_chat : ContextWindow :=
  after (_ ← add_user "hello"; add_assistant "hi") over_reserved.

(** A window configured with an estimator that answers 0. *)
Definition zero_estimated : ContextWindow :=
  __init__ 100 0 (Some (const_counter 0)).

(** The value of the local [kept] of [render] after [kept.reverse()]
    (line 74): the part of the history that survives the trim. *)
Definition render_kept (self : ContextWindow) : list Message :=
  reverse (render_loop self (render_budget self)
             (reverse (messages self)) [] 0).1.

(** ** Sequences of method calls

    A caller's use of one window: any of the public methods, in any
    order, the results of the queries being dropped. *)
Inductive Call : Type :=
| CallSetSystem (content0 : string)
| CallAdd (role0 content0 : string)
| CallAddUser (content0 : string)
| CallAddAssistant (content0 : string)
| CallRender
| CallTokenCount
| CallAvailableTokens
| CallClear (keep_system : bool).

Definition call (c : Call) : Method unit :=
  match c with
  | CallSetSystem content0 => set_system content0
  | CallAdd role0 content0 => add role0 content0
  | CallAddUser content0 => add_user content0
  | CallAddAssistant content0 => add_assistant content0
  | CallRender => _ ← render; mret tt
  | CallTokenCount => _ ← token_count; mret tt
  | CallAvailableTokens => _ ← available_tokens; mret tt
  | CallClear keep_system => clear keep_system
  end.

Fixpoint calls (cs : list Call) : Method unit :=
  match cs with
  | [] => mret tt
  | c :: cs' => _ ← call c; calls cs'
  end.

(** A window with a pinned message of cost 30 and three turns of cost 30
    each, under a ceiling of 100 with 20 reserved: the budget left for the
    history is 50, so only the newest turn survives. *)
Definition scenario_E : ContextWindow :=
  after (_ ← set_system "S";
         _ ← add_user "one";
         _ ← add_assistant "two";
         add_user "three")
    (__init__ 100 20 (Some (const_counter 26))).

(** The same conversation under a ceiling of 200: everything fits. *)
Definition scenario_E_wide : ContextWindow :=
  after (_ ← set_system "S";
         _ ← add_user "one";
         _ ← add_assistant "two";
         add_user "three")
    (__init__ 200 20 (Some (const_counter 26))).

(** A window that holds two small turns which fit together (cost 10
    each, budget 30), with the length as estimator. *)
Definition scenario_F : ContextWindow :=
  after (_ ← add_user "abcdef"; add_assistant "ghijkl")
    (__init__ 30 0 (Some len_counter)).

(** A session that uses every method. *)
Definition session : list Call :=
  [CallAddUser "hello"; CallSetSystem "Be brief."; CallRender;
   CallAdd "tool" "42"; CallTokenCount; CallClear true;
   CallAddAssistant "hi"; CallAvailableTokens; CallSetSystem "Be kind."].

(** ** Properties *)

(** *** The default estimator *)

Lemma estimate_tokens_ge_1 (text : string) : 1 <= estimate_tokens text.
Proof. unfold estimate_tokens. lia. Qed.

(** C6.  The default estimator returns [max(1, q)] where [q] is the
    length of the text divided by 4 and rounded down; so it is at least 1
    for every text, and it is 1 on the empty string. *)
Theorem estimate_tokens_default (text : string) :
  (exists q r : Z,
     Z.of_nat (String.length text) = 4 * q + r /\ 0 <= r < 4
     /\ estimate_tokens text = Z.max 1 q)
  /\ 1 <= estimate_tokens text
  /\ estimate_tokens "" = 1.
Proof.
  split; [|split; [apply estimate_tokens_ge_1 | reflexivity]].
  exists (Z.of_nat (String.length text) / 4),
         (Z.of_nat (String.length text) mod 4).
  split; [apply Z.div_mod; lia|].
  split; [apply Z.mod_pos_bound; lia | reflexivity].
Qed.

(** *** Reading a method call *)

Lemma render_unfold (self : ContextWindow) :
  render self =
  (option_list (system self) ++
     reverse (render_loop self (render_budget self)
                (reverse (messages self)) [] 0).1,
   self).
Proof.
  unfold render, render_budget, mbind, Method_bind, mret, Method_ret, get_self.
  destruct (system self) as [sys|]; simpl;
    destruct (render_loop _ _ _ _ _) as [kept used]; reflexivity.
Qed.

Lemma after_render (self : ContextWindow) : after render self = self.
Proof. unfold after. rewrite render_unfold. reflexivity. Qed.

(** *** Sums of accounted costs *)

Section Accounting.
Context (self : ContextWindow).

Lemma foldl_tokens_shift (a : Z) (ms : list Message) :
  foldl (fun acc m => acc + _message_tokens self m) a ms
  = a + sum_tokens self ms.
Proof.
  unfold sum_tokens. revert a.
  induction ms as [|m ms IH]; intros a; simpl; [lia|].
  rewrite (IH (a + _)), (IH (0 + _)). lia.
Qed.

Lemma sum_tokens_nil : sum_tokens self [] = 0.
Proof. reflexivity. Qed.

Lemma sum_tokens_cons (m : Message) (ms : list Message) :
  sum_tokens self (m :: ms) = _message_tokens self m + sum_tokens self ms.
Proof.
  unfold sum_tokens at 1. simpl. rewrite foldl_tokens_shift. lia.
Qed.

Lemma sum_tokens_app (ms1 ms2 : list Message) :
  sum_tokens self (ms1 ++ ms2) = sum_tokens self ms1 + sum_tokens self ms2.
Proof.
  induction ms1 as [|m ms1 IH]; simpl.
  - rewrite sum_tokens_nil. lia.
  - rewrite !sum_tokens_cons, IH. lia.
Qed.

Lemma sum_tokens_reverse (ms : list Message) :
  sum_tokens self (reverse ms) = sum_tokens self ms.
Proof.
  induction ms as [|m ms IH]; [reflexivity|].
  rewrite reverse_cons, sum_tokens_app, !sum_tokens_cons, sum_tokens_nil, IH.
  lia.
Qed.

Lemma sum_tokens_contract (ms : list Message) :
  estimator_contract self ->
  (1 + overhead) * Z.of_nat (length ms) <= sum_tokens self ms.
Proof.
  intros Hc. induction ms as [|m ms IH].
  - rewrite sum_tokens_nil. simpl. lia.
  - rewrite sum_tokens_cons. unfold _message_tokens at 1.
    specialize (Hc (content m)). simpl length. lia.
Qed.

(** *** The loop of [render] against the walk of the specification *)

Lemma render_loop_walk (budget : Z) (todo kept : list Message) (used : Z) :
  render_loop self budget todo kept used
  = (kept ++ spec_walk (_message_tokens self) budget used todo,
     used + sum_tokens self (spec_walk (_message_tokens self) budget used todo)).
Proof.
  revert kept used.
  induction todo as [|msg todo IH]; intros kept used; simpl.
  - rewrite app_nil_r, sum_tokens_nil. f_equal. lia.
  - case_bool_decide as Hgt.
    + assert ((used + _message_tokens self msg >? budget) = true) as ->
        by lia.
      rewrite app_nil_r, sum_tokens_nil. f_equal. lia.
    + assert ((used + _message_tokens self msg >? budget) = false) as ->
        by lia.
      rewrite IH, <- app_assoc, sum_tokens_cons. simpl. f_equal. lia.
Qed.

Lemma spec_walk_prefix (budget used : Z) (todo : list Message) :
  spec_walk (_message_tokens self) budget used todo `prefix_of` todo.
Proof.
  revert used. induction todo as [|msg todo IH]; intros used; simpl.
  - reflexivity.
  - case_bool_decide; [apply prefix_nil|]. apply prefix_cons, IH.
Qed.

(** Whatever the walk keeps fits: the running total never passes the
    budget once a message has been kept. *)
Lemma spec_walk_fits (budget used : Z) (todo : list Message) :
  spec_walk (_message_tokens self) budget used todo = []
  \/ used + sum_tokens self (spec_walk (_message_tokens self) budget used todo)
     <= budget.
Proof.
  revert used. induction todo as [|msg todo IH]; intros used; simpl.
  - left; reflexivity.
  - case_bool_decide as Hgt; [left; reflexivity|]. right.
    rewrite sum_tokens_cons.
    destruct (IH (used + _message_tokens self msg)) as [-> | Hle].
    + rewrite sum_tokens_nil. lia.
    + lia.
Qed.

Lemma spec_walk_bound (budget : Z) (todo : list Message) :
  sum_tokens self (spec_walk (_message_tokens self) budget 0 todo)
  <= Z.max 0 budget.
Proof.
  destruct (spec_walk_fits budget 0 todo) as [-> | Hle].
  - rewrite sum_tokens_nil. lia.
  - lia.
Qed.

(** With a contract-satisfying estimator nothing fits a budget that the
    running total already fills. *)
Lemma spec_walk_exhausted (budget used : Z) (todo : list Message) :
  estimator_contract self -> budget <= used ->
  spec_walk (_message_tokens self) budget used todo = [].
Proof.
  intros Hc Hle. destruct todo as [|msg todo]; simpl; [reflexivity|].
  case_bool_decide as Hgt; [reflexivity|].
  specialize (Hc (content msg)). unfold _message_tokens, overhead in Hgt. lia.
Qed.

End Accounting.

(** *** What [render] returns *)

Lemma render_returns (self : ContextWindow) :
  returns render self =
  option_list (system self) ++
    reverse (spec_walk (_message_tokens self) (render_budget self) 0
               (reverse (messages self))).
Proof.
  unfold returns. rewrite render_unfold, render_loop_walk. reflexivity.
Qed.

Lemma available_tokens_returns (self : ContextWindow) :
  returns available_tokens self
  = max_tokens self - sum_tokens self (returns render self).
Proof.
  unfold returns, available_tokens, mbind, Method_bind, mret, Method_ret,
    get_self.
  rewrite render_unfold. reflexivity.
Qed.

Lemma sum_tokens_option_list (self : ContextWindow) :
  sum_tokens self (option_list (system self)) = pinned_tokens self.
Proof.
  unfold pinned_tokens. destruct (system self) as [sys|]; simpl.
  - rewrite sum_tokens_cons, sum_tokens_nil. lia.
  - reflexivity.
Qed.

Lemma render_budget_pinned (self : ContextWindow) :
  render_budget self
  = max_tokens self - reserve_tokens self - pinned_tokens self.
Proof.
  unfold render_budget, pinned_tokens.
  destruct (system self); simpl; lia.
Qed.

(** The rendered view costs the pinned message plus at most what is left
    of the budget after it, whatever the estimator answers. *)
Lemma render_cost_bound (self : ContextWindow) :
  sum_tokens self (returns render self)
  <= pinned_tokens self + Z.max 0 (render_budget self).
Proof.
  rewrite render_returns, sum_tokens_app, sum_tokens_reverse,
    sum_tokens_option_list.
  pose proof (spec_walk_bound self (render_budget self)
                (reverse (messages self))).
  lia.
Qed.

(** *** Where the walk stops *)

(** The walk takes a prefix of the newest-first history; every non-empty
    beginning of what it took was within budget when its last message was
    reached, and the first message left behind, if any, overflowed. *)
Lemma spec_walk_stops (self : ContextWindow) (budget : Z)
    (todo : list Message) (used : Z) :
  let walk := spec_walk (_message_tokens self) budget used todo in
  exists rest : list Message,
    todo = walk ++ rest
    /\ (forall taken later : list Message,
          walk = taken ++ later -> taken <> [] ->
          used + sum_tokens self taken <= budget)
    /\ (rest = [] \/
        exists m rest', rest = m :: rest'
          /\ used + sum_tokens self walk + _message_tokens self m > budget).
Proof.
  revert used. induction todo as [|msg todo IH]; intros used; simpl.
  - exists []. split; [reflexivity|]. split; [|left; reflexivity].
    intros taken later Heq Hne. symmetry in Heq.
    apply app_eq_nil in Heq as [-> _]. congruence.
  - case_bool_decide as Hgt.
    + exists (msg :: todo). split; [reflexivity|]. split.
      * intros taken later Heq Hne. symmetry in Heq.
        apply app_eq_nil in Heq as [-> _]. congruence.
      * right. exists msg, todo. rewrite sum_tokens_nil.
        split; [reflexivity | lia].
    + destruct (IH (used + _message_tokens self msg))
        as (rest & Htodo & Hfit & Hstop).
      exists rest. split; [simpl; congruence|]. split.
      * intros [|t taken] later Heq Hne; [congruence|].
        simpl in Heq. injection Heq as <- Heq.
        rewrite sum_tokens_cons.
        destruct taken as [|t' taken].
        -- rewrite sum_tokens_nil. lia.
        -- specialize (Hfit (t' :: taken) later Heq ltac:(discriminate)). lia.
      * destruct Hstop as [-> | (m & rest' & -> & Hover)]; [left; reflexivity|].
        right. exists m, rest'. split; [reflexivity|].
        rewrite sum_tokens_cons. lia.
Qed.

(** ** The claims *)

(** C1.  [render] is the greedy newest-first pack of the specification:
    its result is the one computed by the algorithm as the specification
    words it ([spec_render]); the kept messages are a trailing segment of
    the history in which every trailing part fits the budget, and the
    message just before that segment, if any, would overflow it.  With
    ceiling 100, reserve 20, an estimator returning the length, pinned
    content "SYS" (cost 7) and three turns of cost 30 each, the result
    is the pinned message followed by the two most recent turns. *)
Theorem render_greedy_newest_first (self : ContextWindow) :
  returns render self = spec_render self
  /\ (exists dropped kept : list Message,
        returns render self = option_list (system self) ++ kept
        /\ messages self = dropped ++ kept
        /\ (forall older newer : list Message,
              kept = older ++ newer -> newer <> [] ->
              sum_tokens self newer <= render_budget self)
        /\ (dropped = [] \/
            exists dropped' m, dropped = dropped' ++ [m]
              /\ sum_tokens self kept + _message_tokens self m
                 > render_budget self))
  /\ (forall h1 h2 h3 : Message,
        max_tokens self = 100 -> reserve_tokens self = 20 ->
        (forall text, count_tokens self text = Z.of_nat (String.length text)) ->
        system self = Some (mkMessage "system" "SYS") ->
        messages self = [h1; h2; h3] ->
        _message_tokens self h1 = 30 ->
        _message_tokens self h2 = 30 ->
        _message_tokens self h3 = 30 ->
        _message_tokens self (mkMessage "system" "SYS") = 7
        /\ returns render self = [mkMessage "system" "SYS"; h2; h3]).
Proof.
  split; [|split].
  - rewrite render_returns. unfold spec_render, render_budget.
    destruct (system self); reflexivity.
  - destruct (spec_walk_stops self (render_budget self)
                (reverse (messages self)) 0)
      as (rest & Hsplit & Hfit & Hstop).
    set (walk := spec_walk _ _ _ _) in *.
    exists (reverse rest), (reverse walk).
    split; [apply render_returns|]. split; [|split].
    + rewrite <- reverse_app, <- Hsplit. symmetry. apply reverse_involutive.
    + intros older newer Heq Hne.
      specialize (Hfit (reverse newer) (reverse older)).
      rewrite sum_tokens_reverse in Hfit.
      assert (0 + sum_tokens self newer <= render_budget self); [|lia].
      apply Hfit.
      * rewrite <- reverse_app, <- Heq. symmetry. apply reverse_involutive.
      * intros Hnil. apply Hne.
        rewrite <- (reverse_involutive newer), Hnil. reflexivity.
    + destruct Hstop as [-> | (m & rest' & -> & Hover)]; [left; reflexivity|].
      right. exists (reverse rest'), m. rewrite reverse_cons.
      split; [reflexivity|]. rewrite sum_tokens_reverse. lia.
  - intros h1 h2 h3 Hmax Hres Hlen Hsys Hmsgs H1 H2 H3.
    split; [unfold _message_tokens; rewrite Hlen; reflexivity|].
    rewrite render_returns. unfold render_budget.
    rewrite Hsys, Hmsgs, Hmax, Hres.
    assert (_message_tokens self (mkMessage "system" "SYS") = 7) as ->
      by (unfold _message_tokens; rewrite Hlen; reflexivity).
    unfold reverse; simpl. rewrite H3. simpl. rewrite H2. simpl.
    rewrite H1. reflexivity.
Qed.

Lemma render_greedy_newest_first_witness :
  returns render scenario_A
  = [mkMessage "system" "SYS"; mkMessage "assistant" text26b;
     mkMessage "user" text26c].
Proof.
  apply (proj2 (proj2 (render_greedy_newest_first scenario_A))
           (mkMessage "user" text26a)); reflexivity.
Defined.

(** C2.  Apart from the prepended pinned message, what [render] returns
    is a contiguous trailing segment of the history, in the original
    order, for every state and every estimator.  No turn is kept
    unconditionally: with no pinned message, ceiling 50, reserve 0 and a
    single turn of accounted cost 60, the result is empty. *)
Theorem render_is_history_suffix (self : ContextWindow) :
  (exists kept : list Message,
     returns render self = option_list (system self) ++ kept
     /\ kept `suffix_of` messages self)
  /\ (forall m : Message,
        system self = None ->
        max_tokens self = 50 -> reserve_tokens self = 0 ->
        messages self = [m] -> _message_tokens self m = 60 ->
        returns render self = []).
Proof.
  split.
  - eexists. split; [apply render_returns|].
    apply suffix_prefix_reverse. rewrite reverse_involutive.
    apply spec_walk_prefix.
  - intros m Hsys Hmax Hres Hmsgs Hcost.
    rewrite render_returns. unfold render_budget.
    rewrite Hsys, Hmsgs, Hmax, Hres. unfold reverse; simpl.
    rewrite Hcost. reflexivity.
Qed.

Lemma render_is_history_suffix_witness : returns render scenario_B = [].
Proof.
  apply (proj2 (render_is_history_suffix scenario_B)
           (mkMessage "user" text56)); reflexivity.
Defined.

(** C3.  A pinned message is always the first element of the rendered
    view, whatever it costs; [available_tokens] is the ceiling minus the
    accounted cost of the rendered view.  When the pinned message alone
    uses up the budget (and the estimator meets its contract, or the
    history is empty) the view is exactly the pinned message and the
    available count is the ceiling minus its cost, negative when the cost
    exceeds the ceiling: cost 200 against ceiling 100 and reserve 0 gives
    the pinned message alone and -100. *)
Theorem pinned_always_rendered (self : ContextWindow) (pinned : Message) :
  system self = Some pinned ->
  (exists kept : list Message, returns render self = pinned :: kept)
  /\ returns available_tokens self
     = max_tokens self - sum_tokens self (returns render self)
  /\ (max_tokens self - reserve_tokens self <= _message_tokens self pinned ->
      messages self = [] \/ estimator_contract self ->
      returns render self = [pinned]
      /\ returns available_tokens self
         = max_tokens self - _message_tokens self pinned)
  /\ (_message_tokens self pinned = 200 ->
      max_tokens self = 100 -> reserve_tokens self = 0 ->
      messages self = [] \/ estimator_contract self ->
      returns render self = [pinned]
      /\ returns available_tokens self = -100).
Proof.
  intros Hsys.
  assert (Hgen : max_tokens self - reserve_tokens self
                   <= _message_tokens self pinned ->
                 messages self = [] \/ estimator_contract self ->
                 returns render self = [pinned]
                 /\ returns available_tokens self
                    = max_tokens self - _message_tokens self pinned).
  { intros Hover Hcase.
    assert (Hr : returns render self = [pinned]).
    { rewrite render_returns, Hsys. simpl.
      destruct Hcase as [-> | Hc]; [reflexivity|].
      rewrite spec_walk_exhausted; [reflexivity | assumption |].
      unfold render_budget. rewrite Hsys. lia. }
    split; [assumption|].
    rewrite available_tokens_returns, Hr, sum_tokens_cons, sum_tokens_nil.
    lia. }
  split; [|split; [|split]].
  - eexists. rewrite render_returns, Hsys. reflexivity.
  - apply available_tokens_returns.
  - exact Hgen.
  - intros Hcost Hmax Hres Hcase.
    destruct Hgen as [Hr Ha]; [lia | assumption |].
    split; [assumption | lia].
Qed.

Lemma pinned_always_rendered_witness :
  returns render scenario_C
    = [mkMessage "system" "You are a very long instruction."]
  /\ returns available_tokens scenario_C = -100.
Proof.
  apply (pinned_always_rendered scenario_C
           (mkMessage "system" "You are a very long instruction."));
    try reflexivity.
  right. intros text. unfold scenario_C. simpl. unfold const_counter. lia.
Defined.

(** C5.  With a contract-satisfying estimator, a budget that is zero or
    negative once the pinned cost is subtracted keeps no turn: [render]
    returns the pinned message alone if one is set and nothing otherwise.
    In particular a reserve at or above the ceiling with no pinned
    message renders nothing for every history; [render] returns normally
    on such a window and leaves it as it was. *)
Theorem render_budget_exhausted (self : ContextWindow) :
  estimator_contract self ->
  (render_budget self <= 0 ->
   returns render self = option_list (system self))
  /\ (max_tokens self <= reserve_tokens self -> system self = None ->
      render self = ([], self)).
Proof.
  intros Hc.
  assert (Hgen : render_budget self <= 0 ->
                 returns render self = option_list (system self)).
  { intros Hle. rewrite render_returns, spec_walk_exhausted by assumption.
    apply app_nil_r. }
  split; [exact Hgen|].
  intros Hle Hsys.
  assert (Hr : returns render self = []).
  { rewrite Hgen; [rewrite Hsys; reflexivity|].
    unfold render_budget. rewrite Hsys. lia. }
  pose proof (after_render self) as Ha. unfold returns in Hr. unfold after in Ha.
  destruct (render self) as [r s]. simpl in *. congruence.
Qed.

Lemma render_budget_exhausted_witness :
  render over_reserved_chat = ([], over_reserved_chat).
Proof.
  apply (render_budget_exhausted over_reserved_chat).
  - intros text. apply estimate_tokens_ge_1.
  - simpl. lia.
  - reflexivity.
Defined.

(** *** Mutators *)

Lemma after_bind {A B} (m : Method A) (f : A -> Method B)
    (self : ContextWindow) :
  after (m ≫= f) self = after (f (returns m self)) (after m self).
Proof.
  unfold after, returns, mbind, Method_bind.
  destruct (m self) as [x self']. reflexivity.
Qed.

Lemma after_add (role0 content0 : string) (self : ContextWindow) :
  after (add role0 content0) self
  = mkContextWindow (max_tokens self) (reserve_tokens self)
      (count_tokens self) (system self)
      (messages self ++ [mkMessage role0 content0]).
Proof. reflexivity. Qed.

Lemma after_add_each (turns : list Message) (self : ContextWindow) :
  after (add_each turns) self
  = mkContextWindow (max_tokens self) (reserve_tokens self)
      (count_tokens self) (system self) (messages self ++ turns).
Proof.
  revert self. induction turns as [|[r c] turns IH]; intros self.
  - simpl. rewrite app_nil_r. destruct self; reflexivity.
  - cbn [add_each]. rewrite after_bind, IH, after_add. simpl.
    rewrite <- app_assoc. reflexivity.
Qed.

Lemma after_clear (keep_system : bool) (self : ContextWindow) :
  after (clear keep_system) self
  = mkContextWindow (max_tokens self) (reserve_tokens self)
      (count_tokens self)
      (if keep_system then system self else None) [].
Proof. destruct keep_system; reflexivity. Qed.

(** Accounting depends on the object through its estimator only. *)
Lemma sum_tokens_ext (s1 s2 : ContextWindow) (ms : list Message) :
  count_tokens s1 = count_tokens s2 -> sum_tokens s1 ms = sum_tokens s2 ms.
Proof.
  intros Heq. unfold sum_tokens, _message_tokens. rewrite Heq. reflexivity.
Qed.

Lemma token_count_returns (self : ContextWindow) :
  returns token_count self
  = pinned_tokens self + sum_tokens self (messages self).
Proof.
  unfold returns, token_count, mbind, Method_bind, mret, Method_ret, get_self,
    pinned_tokens.
  simpl. rewrite foldl_tokens_shift.
  destruct (system self); simpl; lia.
Qed.

(** C7.  [clear(True)] empties the history and leaves the pinned message,
    the ceiling, the reserve and the estimator as they were, so [render]
    then returns the pinned message alone if one is set (nothing
    otherwise); [clear(False)] also unsets the pinned message, after
    which [render] returns nothing, also when it follows a [clear(True)].
    Both calls return normally on every window. *)
Theorem clear_frame (self : ContextWindow) :
  clear true self
  = (tt, mkContextWindow (max_tokens self) (reserve_tokens self)
           (count_tokens self) (system self) [])
  /\ returns render (after (clear true) self) = option_list (system self)
  /\ clear false self
     = (tt, mkContextWindow (max_tokens self) (reserve_tokens self)
              (count_tokens self) None [])
  /\ returns render (after (clear false) self) = []
  /\ returns render (after (clear false) (after (clear true) self)) = [].
Proof.
  split; [reflexivity|]. split; [|split; [reflexivity|split]].
  - rewrite render_returns, after_clear. simpl. apply app_nil_r.
  - rewrite render_returns, after_clear. reflexivity.
  - rewrite render_returns, !after_clear. reflexivity.
Qed.

Example scenario_D_clear :
  returns render scenario_D
    = [mkMessage "system" "Be brief."; mkMessage "user" "What is a monad?";
       mkMessage "assistant" "A monoid in the category of endofunctors."]
  /\ returns render (after (clear true) scenario_D)
     = [mkMessage "system" "Be brief."]
  /\ returns render (after (clear false) (after (clear true) scenario_D))
     = [].
Proof. repeat split. Qed.

(** C9.  [render] is idempotent: it leaves the window as it found it, so
    a second call with nothing in between returns the same sequence. *)
Theorem render_idempotent (self : ContextWindow) :
  after render self = self
  /\ returns render (after render self) = returns render self
  /\ returns (_ ← render; render) self = returns render self.
Proof.
  split; [apply after_render|]. split.
  - rewrite after_render. reflexivity.
  - unfold returns, mbind, Method_bind. rewrite render_unfold. simpl.
    rewrite render_unfold. reflexivity.
Qed.

(** C10, as the code has it.  On a freshly constructed window whose
    reserve (20) exceeds its ceiling (10), with the default estimator and
    no pinned message, the rendered view is empty: its cost 0 is above
    ceiling minus reserve (-10), and the available count 10 is below the
    reserve. *)
Lemma headroom_counterexample :
  estimator_contract over_reserved
  /\ system over_reserved = None
  /\ returns render over_reserved = []
  /\ ~ (sum_tokens over_reserved (returns render over_reserved)
        <= max_tokens over_reserved - reserve_tokens over_reserved)
  /\ returns available_tokens over_reserved = 10
  /\ ~ (reserve_tokens over_reserved
        <= returns available_tokens over_reserved).
Proof.
  split; [intros text; apply estimate_tokens_ge_1|].
  repeat split; try reflexivity; vm_compute; intros H; apply H; reflexivity.
Qed.

(** C10, amended.  With a contract-satisfying estimator, whenever the
    pinned message's accounted cost, counted as 0 when none is set, is at
    most ceiling minus reserve (so with none set the reserve must not
    exceed the ceiling), the rendered view costs at most ceiling minus
    reserve, and [available_tokens] is at least the reserve. *)
Theorem render_leaves_headroom (self : ContextWindow) :
  estimator_contract self ->
  pinned_tokens self <= max_tokens self - reserve_tokens self ->
  sum_tokens self (returns render self)
    <= max_tokens self - reserve_tokens self
  /\ reserve_tokens self <= returns available_tokens self.
Proof.
  intros _ Hfit.
  pose proof (render_cost_bound self) as Hb.
  rewrite render_budget_pinned in Hb.
  rewrite available_tokens_returns. lia.
Qed.

Lemma render_leaves_headroom_witness :
  sum_tokens scenario_D (returns render scenario_D) <= 4096 - 512
  /\ 512 <= returns available_tokens scenario_D.
Proof.
  apply (render_leaves_headroom scenario_D).
  - intros text. apply estimate_tokens_ge_1.
  - vm_compute. discriminate.
Defined.

(** *** Appending never touches the configuration *)

Lemma pinned_tokens_add_each (turns : list Message) (self : ContextWindow) :
  pinned_tokens (after (add_each turns) self) = pinned_tokens self.
Proof. rewrite after_add_each. reflexivity. Qed.

Lemma token_count_add_each (turns : list Message) (self : ContextWindow) :
  returns token_count (after (add_each turns) self)
  = returns token_count self + sum_tokens self turns.
Proof.
  rewrite !token_count_returns, pinned_tokens_add_each, after_add_each.
  simpl messages.
  rewrite (sum_tokens_ext _ self) by reflexivity.
  rewrite sum_tokens_app. lia.
Qed.

(** C8.  [token_count] is the accounted cost of the pinned message (if
    set) plus that of every message of the history, whatever the budget.
    Each [add] raises it by exactly the accounted cost of the message
    added, so with a contract-satisfying estimator it passes every bound
    (the ceiling included) once enough turns are appended; meanwhile
    [available_tokens] is still the ceiling minus the cost of the
    rendered view, and stays within limits set by the ceiling, the
    reserve and the pinned message alone. *)
Theorem token_count_unclamped (self : ContextWindow) :
  returns token_count self
    = pinned_tokens self + sum_tokens self (messages self)
  /\ (forall role0 content0 : string,
        returns token_count (after (add role0 content0) self)
        = returns token_count self
          + _message_tokens self (mkMessage role0 content0))
  /\ (estimator_contract self ->
      forall bound : Z, exists n : nat, forall turns : list Message,
        (n <= length turns)%nat ->
        bound < returns token_count (after (add_each turns) self))
  /\ (forall turns : list Message,
        returns available_tokens (after (add_each turns) self)
        = max_tokens self
          - sum_tokens self (returns render (after (add_each turns) self))
        /\ Z.min (max_tokens self - pinned_tokens self) (reserve_tokens self)
           <= returns available_tokens (after (add_each turns) self)
        /\ (estimator_contract self ->
            returns available_tokens (after (add_each turns) self)
            <= max_tokens self - pinned_tokens self)).
Proof.
  split; [apply token_count_returns|]. split; [|split].
  - intros role0 content0.
    pose proof (token_count_add_each [mkMessage role0 content0] self) as H.
    rewrite sum_tokens_cons, sum_tokens_nil in H.
    change (after (add_each [mkMessage role0 content0]) self)
      with (after (add role0 content0) self) in H.
    lia.
  - intros Hc bound.
    exists (Z.to_nat (bound - returns token_count self) + 1)%nat.
    intros turns Hlen. rewrite token_count_add_each.
    pose proof (sum_tokens_contract self turns Hc) as Hsum.
    unfold overhead in Hsum. lia.
  - intros turns.
    set (self' := after (add_each turns) self).
    assert (Hmax : max_tokens self' = max_tokens self)
      by (unfold self'; rewrite after_add_each; reflexivity).
    assert (Hres : reserve_tokens self' = reserve_tokens self)
      by (unfold self'; rewrite after_add_each; reflexivity).
    assert (Hcnt : count_tokens self' = count_tokens self)
      by (unfold self'; rewrite after_add_each; reflexivity).
    pose proof (pinned_tokens_add_each turns self) as Hpin. fold self' in Hpin.
    pose proof (render_cost_bound self') as Hb.
    rewrite render_budget_pinned, Hmax, Hres, Hpin in Hb.
    rewrite available_tokens_returns, Hmax.
    rewrite (sum_tokens_ext self' self) in * by assumption.
    split; [reflexivity|]. split; [lia|].
    intros Hc.
    rewrite render_returns, sum_tokens_app, sum_tokens_reverse.
    rewrite (sum_tokens_ext self self') by (symmetry; assumption).
    rewrite sum_tokens_option_list, Hpin.
    pose proof (sum_tokens_contract self
                  (spec_walk (_message_tokens self')
                     (render_budget self') 0 (reverse (messages self'))) Hc)
      as Hpos.
    unfold overhead in Hpos. lia.
Qed.

Lemma token_count_unclamped_witness :
  exists n : nat, forall turns : list Message,
    (n <= length turns)%nat ->
    max_tokens scenario_D
    < returns token_count (after (add_each turns) scenario_D).
Proof.
  apply (proj1 (proj2 (proj2 (token_count_unclamped scenario_D)))).
  intros text. apply estimate_tokens_ge_1.
Defined.

(** C4, as the code has it.  Construction with an estimator that answers
    0 succeeds and stores that estimator; the accounted cost of a message
    is then 4, below 1 + overhead: the estimate is neither clamped nor
    rejected. *)
Lemma invalid_estimator_counterexample :
  zero_estimated = mkContextWindow 100 0 (const_counter 0) None []
  /\ count_tokens zero_estimated "hi" = 0
  /\ _message_tokens zero_estimated (mkMessage "user" "hi") = 4
  /\ ~ (1 + overhead
        <= _message_tokens zero_estimated (mkMessage "user" "hi")).
Proof.
  repeat split. vm_compute. intros H; apply H; reflexivity.
Qed.

(** C4, amended.  The constructor accepts every estimator and stores it
    as given, and no method replaces it; the accounted cost of a message
    is the estimator's answer on its content plus the overhead 4, with no
    clamping, so it reaches 1 + overhead exactly when the estimator
    answers at least 1 on that content. *)
Theorem message_tokens_unclamped (max0 reserve0 : Z)
    (token_counter : string -> Z) (msg : Message) :
  count_tokens (__init__ max0 reserve0 (Some token_counter)) = token_counter
  /\ (forall (self : ContextWindow) (content0 role0 : string)
             (keep_system : bool),
        count_tokens (after (set_system content0) self) = count_tokens self
        /\ count_tokens (after (add role0 content0) self) = count_tokens self
        /\ count_tokens (after (clear keep_system) self) = count_tokens self
        /\ count_tokens (after render self) = count_tokens self)
  /\ _message_tokens (__init__ max0 reserve0 (Some token_counter)) msg
     = token_counter (content msg) + 4
  /\ (1 + overhead
        <= _message_tokens (__init__ max0 reserve0 (Some token_counter)) msg
      <-> 1 <= token_counter (content msg)).
Proof.
  split; [reflexivity|]. split; [|split; [reflexivity|]].
  - intros self content0 role0 keep_system.
    rewrite after_clear, after_render. repeat split.
  - unfold _message_tokens, overhead. simpl. lia.
Qed.

(** ** Further properties of the window *)

(** *** The surviving history *)

Lemma render_kept_walk (self : ContextWindow) :
  render_kept self
  = reverse (spec_walk (_message_tokens self) (render_budget self) 0
               (reverse (messages self))).
Proof. unfold render_kept. rewrite render_loop_walk. reflexivity. Qed.

Lemma render_split (self : ContextWindow) :
  returns render self = option_list (system self) ++ render_kept self.
Proof. rewrite render_returns, render_kept_walk. reflexivity. Qed.

Lemma message_tokens_contract (self : ContextWindow) (m : Message) :
  estimator_contract self -> 1 + overhead <= _message_tokens self m.
Proof.
  intros Hc. specialize (Hc (content m)). unfold _message_tokens. lia.
Qed.

Lemma sum_tokens_nonneg (self : ContextWindow) (ms : list Message) :
  estimator_contract self -> 0 <= sum_tokens self ms.
Proof.
  intros Hc. pose proof (sum_tokens_contract self ms Hc).
  unfold overhead in *. lia.
Qed.

Section Walk.
Context (self : ContextWindow).

(** A history whose whole cost fits is taken whole. *)
Lemma spec_walk_all (budget used : Z) (todo : list Message) :
  estimator_contract self ->
  used + sum_tokens self todo <= budget ->
  spec_walk (_message_tokens self) budget used todo = todo.
Proof.
  intros Hc. revert used.
  induction todo as [|msg todo IH]; intros used Hfit; simpl; [reflexivity|].
  rewrite sum_tokens_cons in Hfit.
  pose proof (sum_tokens_nonneg self todo Hc).
  case_bool_decide as Hgt; [lia|].
  rewrite IH; [reflexivity | lia].
Qed.


(** More room, at the start or in the budget, never takes less. *)
Lemma spec_walk_mono (cost : Message -> Z) (budget budget' used used' : Z)
    (todo : list Message) :
  budget - used <= budget' - used' ->
  spec_walk cost budget used todo `prefix_of` spec_walk cost budget' used' todo.
Proof.
  revert used used'.
  induction todo as [|msg todo IH]; intros used used' Hroom; simpl.
  - reflexivity.
  - case_bool_decide as Hgt; [apply prefix_nil|].
    case_bool_decide as Hgt'; [lia|].
    apply prefix_cons, IH. lia.
Qed.

End Walk.

Lemma message_tokens_ext (s1 s2 : ContextWindow) :
  count_tokens s1 = count_tokens s2 -> _message_tokens s1 = _message_tokens s2.
Proof. intros Heq. unfold _message_tokens. rewrite Heq. reflexivity. Qed.

Lemma render_kept_suffix (self : ContextWindow) :
  render_kept self `suffix_of` messages self.
Proof.
  rewrite render_kept_walk. apply suffix_prefix_reverse.
  rewrite reverse_involutive. apply spec_walk_prefix.
Qed.

Lemma render_kept_all (self : ContextWindow) :
  estimator_contract self ->
  sum_tokens self (messages self) <= render_budget self ->
  render_kept self = messages self.
Proof.
  intros Hc Hfit. rewrite render_kept_walk, spec_walk_all.
  - apply reverse_involutive.
  - assumption.
  - rewrite sum_tokens_reverse. lia.
Qed.

(** X1.  With a contract-satisfying estimator, [render] returns the
    pinned message followed by the whole history exactly when the history
    is empty or [token_count] is within ceiling minus reserve. *)
Theorem render_keeps_all_iff (self : ContextWindow) :
  estimator_contract self ->
  returns render self = option_list (system self) ++ messages self
  <-> messages self = []
      \/ returns token_count self <= max_tokens self - reserve_tokens self.
Proof.
  intros Hc. rewrite render_split, token_count_returns.
  pose proof (render_budget_pinned self) as Hb.
  split.
  - intros Heq. apply app_inv_head in Heq.
    rewrite render_kept_walk in Heq.
    destruct (spec_walk_fits self (render_budget self) 0
                (reverse (messages self))) as [Hnil | Hfit].
    + left. rewrite Hnil in Heq. symmetry. exact Heq.
    + right.
      rewrite <- (sum_tokens_reverse self (spec_walk _ _ _ _)), Heq in Hfit.
      lia.
  - intros [Hnil | Hfit].
    + f_equal. rewrite render_kept_walk, Hnil. reflexivity.
    + f_equal. apply render_kept_all; [assumption | lia].
Qed.

Lemma render_keeps_all_iff_witness :
  returns render scenario_D
    = option_list (system scenario_D) ++ messages scenario_D
  <-> messages scenario_D = []
      \/ returns token_count scenario_D
         <= max_tokens scenario_D - reserve_tokens scenario_D.
Proof.
  apply (render_keeps_all_iff scenario_D).
  intros text. apply estimate_tokens_ge_1.
Defined.



(** X3.  Two windows with the same estimator and the same history: the
    one with the smaller budget (lower ceiling, larger reserve or
    costlier pinned message) keeps a trailing segment of what the other
    keeps.  Raising the budget never loses a message. *)
Theorem render_monotone_in_budget (w1 w2 : ContextWindow) :
  count_tokens w1 = count_tokens w2 ->
  messages w1 = messages w2 ->
  render_budget w1 <= render_budget w2 ->
  render_kept w1 `suffix_of` render_kept w2.
Proof.
  intros Hcnt Hmsgs Hle. rewrite !render_kept_walk.
  apply suffix_prefix_reverse. rewrite !reverse_involutive.
  rewrite (message_tokens_ext w1 w2 Hcnt), Hmsgs.
  apply spec_walk_mono. lia.
Qed.

Lemma render_monotone_in_budget_witness :
  render_kept scenario_E `suffix_of` render_kept scenario_E_wide.
Proof.
  apply (render_monotone_in_budget scenario_E scenario_E_wide).
  - reflexivity.
  - reflexivity.
  - vm_compute. discriminate.
Defined.

(** *** Appending a turn *)

Lemma render_kept_add (role0 content0 : string) (self : ContextWindow) :
  render_kept (after (add role0 content0) self)
  = reverse (spec_walk (_message_tokens self) (render_budget self) 0
               (mkMessage role0 content0 :: reverse (messages self))).
Proof.
  rewrite render_kept_walk, after_add. simpl messages.
  rewrite reverse_snoc. reflexivity.
Qed.

Lemma render_kept_add_fits (role0 content0 : string) (self : ContextWindow) :
  count_tokens self content0 + overhead <= render_budget self ->
  render_kept (after (add role0 content0) self)
  = reverse (spec_walk (_message_tokens self) (render_budget self)
               (0 + (count_tokens self content0 + overhead))
               (reverse (messages self)))
    ++ [mkMessage role0 content0].
Proof.
  intros Hfit. rewrite render_kept_add. simpl.
  unfold _message_tokens at 1. simpl content.
  case_bool_decide as Hgt; [lia|].
  rewrite reverse_cons. reflexivity.
Qed.

(** X4.  Appending a turn whose cost is non-negative and fits the budget
    puts it at the end of the surviving history, and what survives in
    front of it is a trailing segment of what survived before: the new
    turn can push older turns out, never bring one back or reorder. *)
Theorem render_after_add_monotone (self : ContextWindow)
    (role0 content0 : string) :
  0 <= count_tokens self content0 + overhead ->
  count_tokens self content0 + overhead <= render_budget self ->
  exists older : list Message,
    older `suffix_of` render_kept self
    /\ render_kept (after (add role0 content0) self)
       = older ++ [mkMessage role0 content0].
Proof.
  intros Hpos Hfit. eexists. split; [|apply render_kept_add_fits, Hfit].
  rewrite render_kept_walk. apply suffix_prefix_reverse.
  rewrite !reverse_involutive. apply spec_walk_mono. lia.
Qed.

Lemma render_after_add_monotone_witness :
  exists older : list Message,
    older `suffix_of` render_kept scenario_E
    /\ render_kept (after (add "tool" "42") scenario_E)
       = older ++ [mkMessage "tool" "42"].
Proof.
  apply (render_after_add_monotone scenario_E "tool" "42").
  - vm_compute. discriminate.
  - vm_compute. discriminate.
Defined.

(** X5.  When the newest turn of the history does not fit the budget,
    [render] returns the pinned message alone (or nothing): every older
    turn is dropped with it, whether or not it would have fitted.  And
    only then is a non-empty history dropped whole. *)
Theorem render_newest_overflow_iff (self : ContextWindow)
    (older : list Message) (newest : Message) :
  messages self = older ++ [newest] ->
  returns render self = option_list (system self)
  <-> render_budget self < _message_tokens self newest.
Proof.
  intros Hmsgs. rewrite render_split, render_kept_walk, Hmsgs, reverse_snoc.
  simpl. case_bool_decide as Hgt.
  - split; [lia | intros _; apply app_nil_r].
  - split; [|lia]. intros Heq.
    rewrite <- (app_nil_r (option_list (system self))) in Heq at 2.
    apply app_inv_head in Heq. rewrite reverse_cons in Heq.
    destruct (reverse _); discriminate.
Qed.

Lemma render_newest_overflow_iff_witness :
  returns render scenario_B = option_list (system scenario_B)
  <-> render_budget scenario_B
      < _message_tokens scenario_B (mkMessage "user" text56).
Proof.
  apply (render_newest_overflow_iff scenario_B []). reflexivity.
Defined.

(** X6.  A turn appended with [add_user] or [add_assistant] whose cost
    fits the budget is the last element of the next rendered view, with
    role "user" or "assistant" and the given content. *)
Theorem add_user_assistant_rendered_last (self : ContextWindow)
    (content0 : string) :
  count_tokens self content0 + overhead <= render_budget self ->
  last (returns render (after (add_user content0) self))
    = Some (mkMessage "user" content0)
  /\ last (returns render (after (add_assistant content0) self))
     = Some (mkMessage "assistant" content0).
Proof.
  intros Hfit. unfold add_user, add_assistant.
  rewrite !render_split, !render_kept_add_fits by assumption.
  rewrite !app_assoc, !last_snoc. split; reflexivity.
Qed.

Lemma add_user_assistant_rendered_last_witness :
  last (returns render (after (add_user "thanks") scenario_D))
    = Some (mkMessage "user" "thanks")
  /\ last (returns render (after (add_assistant "thanks") scenario_D))
     = Some (mkMessage "assistant" "thanks").
Proof.
  apply (add_user_assistant_rendered_last scenario_D "thanks").
  vm_compute. discriminate.
Defined.

(** *** Pinning, clearing and querying *)

Lemma after_set_system (content0 : string) (self : ContextWindow) :
  after (set_system content0) self
  = mkContextWindow (max_tokens self) (reserve_tokens self)
      (count_tokens self) (Some (mkMessage "system" content0))
      (messages self).
Proof. reflexivity. Qed.

Lemma after_token_count (self : ContextWindow) :
  after token_count self = self.
Proof. reflexivity. Qed.

Lemma after_available_tokens (self : ContextWindow) :
  after available_tokens self = self.
Proof.
  unfold after, available_tokens, mbind, Method_bind, mret, Method_ret,
    get_self.
  rewrite render_unfold. reflexivity.
Qed.

(** X7.  [set_system] replaces the pinned message and nothing else: the
    last call wins, it commutes with [add], the next rendered view starts
    with a message of role "system" carrying the given content, and
    [token_count] changes by the new pinned cost minus the old one. *)
Theorem set_system_replaces (self : ContextWindow)
    (first second role0 content0 : string) :
  after (set_system second) (after (set_system first) self)
  = after (set_system second) self
  /\ after (add role0 content0) (after (set_system first) self)
     = after (set_system first) (after (add role0 content0) self)
  /\ messages (after (set_system first) self) = messages self
  /\ (exists kept : list Message,
        returns render (after (set_system first) self)
        = mkMessage "system" first :: kept
        /\ kept `suffix_of` messages self)
  /\ returns token_count (after (set_system first) self)
     = returns token_count self - pinned_tokens self
       + (count_tokens self first + overhead).
Proof.
  split; [reflexivity|]. split; [reflexivity|]. split; [reflexivity|]. split.
  - exists (render_kept (after (set_system first) self)).
    split; [apply render_split|].
    apply (render_kept_suffix (after (set_system first) self)).
  - rewrite !token_count_returns, after_set_system.
    unfold pinned_tokens at 1. simpl.
    rewrite (sum_tokens_ext _ self) by reflexivity.
    unfold _message_tokens at 1. simpl. lia.
Qed.

(** X8.  [clear(False)] brings the window back to the state the
    constructor gives for the same ceiling, reserve and estimator;
    [clear] is idempotent; after it [token_count] is the pinned cost (0
    without one) and [available_tokens] the ceiling minus that, and the
    history then holds exactly the turns appended since. *)
Theorem clear_resets (self : ContextWindow) (keep_system : bool)
    (turns : list Message) :
  after (clear false) self
  = __init__ (max_tokens self) (reserve_tokens self)
      (Some (count_tokens self))
  /\ after (clear keep_system) (after (clear keep_system) self)
     = after (clear keep_system) self
  /\ returns token_count (after (clear false) self) = 0
  /\ returns available_tokens (after (clear false) self) = max_tokens self
  /\ returns token_count (after (clear true) self) = pinned_tokens self
  /\ returns available_tokens (after (clear true) self)
     = max_tokens self - pinned_tokens self
  /\ messages (after (add_each turns) (after (clear keep_system) self))
     = turns.
Proof.
  split; [reflexivity|].
  split; [rewrite !after_clear; destruct keep_system; reflexivity|].
  split; [reflexivity|].
  split; [rewrite available_tokens_returns; simpl; rewrite sum_tokens_nil;
          lia|].
  split.
  { rewrite token_count_returns, after_clear. unfold pinned_tokens.
    simpl. rewrite sum_tokens_nil.
    destruct (system self); simpl; unfold _message_tokens; simpl; lia. }
  split.
  - rewrite available_tokens_returns, render_split, render_kept_walk,
      after_clear.
    simpl. rewrite app_nil_r.
    change (sum_tokens _ (option_list (system self)))
      with (sum_tokens self (option_list (system self))).
    rewrite sum_tokens_option_list. reflexivity.
  - rewrite after_add_each, after_clear. reflexivity.
Qed.

(** X9.  The queries never change the window: [token_count] and
    [available_tokens], like [render], leave every attribute as it was,
    so any run of queries gives the results each would give alone. *)
Theorem queries_read_only (self : ContextWindow) :
  after token_count self = self
  /\ after available_tokens self = self
  /\ returns (_ ← available_tokens; _ ← token_count; render) self
     = returns render self
  /\ returns (_ ← render; _ ← token_count; available_tokens) self
     = returns available_tokens self
  /\ returns (_ ← render; _ ← available_tokens; token_count) self
     = returns token_count self.
Proof.
  assert (Hseq : forall {A B} (q : Method A) (m : Method B) s,
            after q s = s -> returns (_ ← q; m) s = returns m s).
  { intros A B q m s Hq. unfold returns, after, mbind, Method_bind in *.
    destruct (q s) as [x s']. simpl in Hq. subst s'. reflexivity. }
  split; [apply after_token_count|].
  split; [apply after_available_tokens|].
  split; [|split].
  - rewrite Hseq by apply after_available_tokens.
    apply Hseq, after_token_count.
  - rewrite Hseq by apply after_render. apply Hseq, after_token_count.
  - rewrite Hseq by apply after_render. apply Hseq, after_available_tokens.
Qed.

(** X10.  With a contract-satisfying estimator the rendered view never
    costs more than [token_count], so [available_tokens] is at least the
    ceiling minus [token_count]; the two agree when [token_count] is
    within ceiling minus reserve. *)
Theorem available_tokens_vs_token_count (self : ContextWindow) :
  estimator_contract self ->
  sum_tokens self (returns render self) <= returns token_count self
  /\ max_tokens self - returns token_count self
     <= returns available_tokens self
  /\ (returns token_count self <= max_tokens self - reserve_tokens self ->
      returns available_tokens self
      = max_tokens self - returns token_count self).
Proof.
  intros Hc.
  rewrite available_tokens_returns, token_count_returns, render_split,
    sum_tokens_app, sum_tokens_option_list.
  destruct (render_kept_suffix self) as [dropped Hsplit].
  pose proof (sum_tokens_nonneg self dropped Hc) as Hdrop.
  assert (Hsum : sum_tokens self (messages self)
                 = sum_tokens self dropped + sum_tokens self (render_kept self))
    by (rewrite Hsplit at 1; apply sum_tokens_app).
  split; [lia|]. split; [lia|].
  intros Hfit. rewrite render_kept_all; [lia | assumption |].
  rewrite render_budget_pinned. lia.
Qed.

Lemma available_tokens_vs_token_count_witness :
  sum_tokens scenario_E (returns render scenario_E)
    <= returns token_count scenario_E
  /\ max_tokens scenario_E - returns token_count scenario_E
     <= returns available_tokens scenario_E
  /\ (returns token_count scenario_E
        <= max_tokens scenario_E - reserve_tokens scenario_E ->
      returns available_tokens scenario_E
      = max_tokens scenario_E - returns token_count scenario_E).
Proof.
  apply (available_tokens_vs_token_count scenario_E).
  intros text. simpl. unfold const_counter. lia.
Defined.

(** *** The default estimator on longer texts *)

Lemma string_length_append (s t : string) :
  String.length (String.append s t)
  = (String.length s + String.length t)%nat.
Proof. induction s as [|c s IH]; simpl; [reflexivity | rewrite IH; reflexivity]. Qed.

Lemma estimate_tokens_length_mono (s t : string) :
  (String.length s <= String.length t)%nat ->
  estimate_tokens s <= estimate_tokens t.
Proof.
  intros Hle. unfold estimate_tokens.
  assert (Z.of_nat (String.length s) / 4 <= Z.of_nat (String.length t) / 4)
    by (apply Z.div_le_mono; lia).
  lia.
Qed.

(** X11.  The default estimate never decreases when the text gets
    longer: a text at least as long as another is estimated at least as
    high, in particular a text extended by another; and the estimate of
    a concatenation is at most the sum of the two estimates plus one. *)
Theorem estimate_tokens_monotone (s t : string) :
  ((String.length s <= String.length t)%nat ->
   estimate_tokens s <= estimate_tokens t)
  /\ estimate_tokens s <= estimate_tokens (String.append s t)
  /\ estimate_tokens (String.append s t)
     <= estimate_tokens s + estimate_tokens t + 1.
Proof.
  split; [apply estimate_tokens_length_mono|]. split.
  - apply estimate_tokens_length_mono. rewrite string_length_append. lia.
  - unfold estimate_tokens. rewrite string_length_append, Nat2Z.inj_add.
    set (a := Z.of_nat (String.length s)).
    set (b := Z.of_nat (String.length t)).
    assert (0 <= a) by (unfold a; lia). assert (0 <= b) by (unfold b; lia).
    pose proof (Z.div_mod a 4). pose proof (Z.mod_pos_bound a 4).
    pose proof (Z.div_mod b 4). pose proof (Z.mod_pos_bound b 4).
    pose proof (Z.div_mod (a + b) 4). pose proof (Z.mod_pos_bound (a + b) 4).
    lia.
Qed.

Lemma estimate_tokens_monotone_witness :
  estimate_tokens "What is" <= estimate_tokens "What is a monad?".
Proof.
  apply (proj1 (estimate_tokens_monotone "What is" "What is a monad?")).
  simpl. lia.
Defined.

(** *** Invariants of every reachable window *)

Lemma after_call (c : Call) (self : ContextWindow) :
  after (call c) self
  = mkContextWindow (max_tokens self) (reserve_tokens self)
      (count_tokens self)
      match c with
      | CallSetSystem content0 => Some (mkMessage "system" content0)
      | CallClear false => None
      | _ => system self
      end
      match c with
      | CallAdd role0 content0 => messages self ++ [mkMessage role0 content0]
      | CallAddUser content0 => messages self ++ [mkMessage "user" content0]
      | CallAddAssistant content0 =>
          messages self ++ [mkMessage "assistant" content0]
      | CallClear _ => []
      | _ => messages self
      end.
Proof.
  destruct c as [| | | | | | |[|]]; try reflexivity.
  - cbn [call]. rewrite after_bind, after_render. destruct self; reflexivity.
  - cbn [call]. rewrite after_bind, after_token_count.
    destruct self; reflexivity.
  - cbn [call]. rewrite after_bind, after_available_tokens.
    destruct self; reflexivity.
Qed.

Lemma after_calls_frame (cs : list Call) (self : ContextWindow) :
  max_tokens (after (calls cs) self) = max_tokens self
  /\ reserve_tokens (after (calls cs) self) = reserve_tokens self
  /\ count_tokens (after (calls cs) self) = count_tokens self
  /\ ((forall p, system self = Some p -> role p = "system") ->
      forall p, system (after (calls cs) self) = Some p -> role p = "system").
Proof.
  revert self. induction cs as [|c cs IH]; intros self.
  - repeat split. intros Hrole p Hp. apply Hrole, Hp.
  - cbn [calls]. rewrite after_bind.
    destruct (IH (after (call c) self)) as (Hmax & Hres & Hcnt & Hrole).
    rewrite Hmax, Hres, Hcnt.
    split; [rewrite after_call; reflexivity|].
    split; [rewrite after_call; reflexivity|].
    split; [rewrite after_call; reflexivity|].
    intros Hself. apply Hrole. intros p Hp.
    rewrite after_call in Hp. simpl in Hp.
    destruct c as [| | | | | | |[|]]; try (apply Hself, Hp);
      inversion Hp; reflexivity.
Qed.

(** X12.  Whatever sequence of method calls a window has gone through
    since it was constructed, its ceiling, reserve and estimator are the
    ones given to the constructor, and its pinned message, if any, has
    role "system"; a window constructed without an estimator therefore
    always meets the estimator contract. *)
Theorem calls_keep_invariants (max0 reserve0 : Z)
    (token_counter : option (string -> Z)) (cs : list Call) :
  max_tokens (after (calls cs) (__init__ max0 reserve0 token_counter)) = max0
  /\ reserve_tokens (after (calls cs) (__init__ max0 reserve0 token_counter))
     = reserve0
  /\ count_tokens (after (calls cs) (__init__ max0 reserve0 token_counter))
     = default estimate_tokens token_counter
  /\ (forall p : Message,
        system (after (calls cs) (__init__ max0 reserve0 token_counter))
        = Some p ->
        role p = "system")
  /\ (token_counter = None ->
      estimator_contract
        (after (calls cs) (__init__ max0 reserve0 token_counter))).
Proof.
  destruct (after_calls_frame cs (__init__ max0 reserve0 token_counter))
    as (Hmax & Hres & Hcnt & Hrole).
  split; [exact Hmax|]. split; [exact Hres|]. split; [exact Hcnt|]. split.
  - apply Hrole. intros p Hp. discriminate Hp.
  - intros -> text. rewrite Hcnt. apply estimate_tokens_ge_1.
Qed.

Lemma calls_keep_invariants_witness :
  estimator_contract (after (calls session) (__init__ 4096 512 None)).
Proof.
  apply (calls_keep_invariants 4096 512 None session). reflexivity.
Defined.

(** X13.  With a contract-satisfying estimator every rendered turn
    costs at least 5, so the number of turns in the rendered view is at
    most a fifth of the budget left after the pinned message (none when
    that budget is below 5). *)
Theorem render_kept_count_bound (self : ContextWindow) :
  estimator_contract self ->
  (1 + overhead) * Z.of_nat (length (render_kept self))
  <= Z.max 0 (render_budget self)
  /\ (render_budget self < 1 + overhead -> render_kept self = []).
Proof.
  intros Hc.
  pose proof (sum_tokens_contract self (render_kept self) Hc) as Hlow.
  assert (Hup : sum_tokens self (render_kept self)
                <= Z.max 0 (render_budget self)).
  { rewrite render_kept_walk, sum_tokens_reverse. apply spec_walk_bound. }
  split; [lia|]. intros Hsmall.
  destruct (render_kept self) as [|m kept]; [reflexivity|].
  simpl length in Hlow. unfold overhead in *. lia.
Qed.

Lemma render_kept_count_bound_witness :
  (1 + overhead) * Z.of_nat (length (render_kept scenario_E))
  <= Z.max 0 (render_budget scenario_E)
  /\ (render_budget scenario_E < 1 + overhead -> render_kept scenario_E = []).
Proof.
  apply (render_kept_count_bound scenario_E).
  intros text. simpl. unfold const_counter. lia.
Defined.
